(** * recorder.py: frame transformations, dead-reckoning integration and
      the recorder of Kalman states.

    Shallow embedding of [src/recorder.py].

    Modelling conventions.
    - numpy's float64 scalars are idealised as the real numbers [R]: the
      theorems over [R] say which expression the code evaluates, and what
      that expression is worth in exact arithmetic. Where a statement
      depends on rounding, the code is embedded a second time over
      binary64 floats ([rbd_translate64]).
    - A 3-vector ([np.array] with [ndim == 1]) is a [vec]; a 3x3 array is a
      [mat] given by its rows; [.dot] and [.T] are the matrix product and
      the transpose.
    - A scipy [Rotation] is represented by its direction cosine matrix:
      [rot.from_dcm m] is the constructor [from_dcm m], [r.apply(v)] is the
      product of that matrix with [v], [r.apply(v, True)] the product of its
      transpose with [v], and [p * q] is the matrix product.
    - Python exceptions are the [Raises] outcomes of the monad [py].
    - [ecef2lla] only forwards its argument to [pyproj.transform]; the
      plotting methods only render. They are not embedded. *)

From Stdlib Require Import Reals Lra Lia RNsatz.
From Stdlib Require PrimFloat.
From stdpp Require Import base option list strings.

Set Default Proof Using "Type".

(** ** Outcomes of Python calls *)

Inductive exn : Set :=
| IndexError
| KeyError
| AttributeError.

Inductive py (A : Type) : Type :=
| Returns (a : A)
| Raises (e : exn).

Arguments Returns {A} a.
Arguments Raises {A} e.

#[global] Instance py_ret : MRet py := fun _ a => Returns a.

#[global] Instance py_bind : MBind py := fun _ _ f c =>
  match c with
  | Returns a => f a
  | Raises e => Raises e
  end.

#[global] Instance py_fmap : FMap py := fun _ _ f c =>
  match c with
  | Returns a => Returns (f a)
  | Raises e => Raises e
  end.

(** [xs[i]] for a non-negative index. *)
Definition index {A : Type} (xs : list A) (i : nat) : py A :=
  match xs !! i with
  | Some x => Returns x
  | None => Raises IndexError
  end.

(** [xs[-1]]. *)
Definition index_last {A : Type} (xs : list A) : py A :=
  match last xs with
  | Some x => Returns x
  | None => Raises IndexError
  end.

(** [for i in is: s = body(i, s)]. *)
Fixpoint for_each {S : Type} (idx : list nat) (body : nat -> S -> py S) (s : S)
  : py S :=
  match idx with
  | [] => Returns s
  | i :: rest => s' ← body i s; for_each rest body s'
  end.

(** [range(a, b)]. *)
Definition range (a b : nat) : list nat := seq a (b - a).

(** ** Vectors, matrices and rotations *)

Record vec : Type := mkvec { vx : R; vy : R; vz : R }.

Record mat : Type := mkmat { row1 : vec; row2 : vec; row3 : vec }.

Section Algebra.
Local Open Scope R_scope.

Definition vzero : vec := mkvec 0 0 0.

Definition vadd (u v : vec) : vec :=
  mkvec (vx u + vx v) (vy u + vy v) (vz u + vz v).

Definition vsub (u v : vec) : vec :=
  mkvec (vx u - vx v) (vy u - vy v) (vz u - vz v).

Definition vdot (u v : vec) : R :=
  vx u * vx v + vy u * vy v + vz u * vz v.

Definition col1 (m : mat) : vec := mkvec (vx (row1 m)) (vx (row2 m)) (vx (row3 m)).
Definition col2 (m : mat) : vec := mkvec (vy (row1 m)) (vy (row2 m)) (vy (row3 m)).
Definition col3 (m : mat) : vec := mkvec (vz (row1 m)) (vz (row2 m)) (vz (row3 m)).

(** [m.T] *)
Definition transpose (m : mat) : mat := mkmat (col1 m) (col2 m) (col3 m).

(** [m.dot(v)] for a vector [v] *)
Definition mvec (m : mat) (v : vec) : vec :=
  mkvec (vdot (row1 m) v) (vdot (row2 m) v) (vdot (row3 m) v).

(** [m.dot(n)] for a matrix [n] *)
Definition mdot (m n : mat) : mat :=
  let row r := mkvec (vdot r (col1 n)) (vdot r (col2 n)) (vdot r (col3 n)) in
  mkmat (row (row1 m)) (row (row2 m)) (row (row3 m)).

Definition identity_mat : mat :=
  mkmat (mkvec 1 0 0) (mkvec 0 1 0) (mkvec 0 0 1).

Definition det (m : mat) : R :=
  let '(mkvec a b c) := row1 m in
  let '(mkvec d e f) := row2 m in
  let '(mkvec g h i) := row3 m in
  a * (e * i - f * h) - b * (d * i - f * g) + c * (d * h - e * g).

(** The matrices scipy accepts as rotations without re-orthogonalising. *)
Definition proper_orthogonal (m : mat) : Prop :=
  mdot (transpose m) m = identity_mat /\ det m = 1.
End Algebra.

Record Rotation : Type := from_dcm { as_dcm : mat }.

(** [r.apply(v, inverse)] *)
Definition apply (r : Rotation) (v : vec) (inverse : bool) : vec :=
  if inverse then mvec (transpose (as_dcm r)) v else mvec (as_dcm r) v.

(** [p * q] *)
Definition rot_mul (p q : Rotation) : Rotation :=
  from_dcm (mdot (as_dcm p) (as_dcm q)).

Arguments apply : simpl never.

Definition rot_identity : Rotation := from_dcm identity_mat.

Definition is_rotation (r : Rotation) : Prop := proper_orthogonal (as_dcm r).

(** ** ecef2enu *)

Section Ecef2enu.
Local Open Scope R_scope.

Definition MatNorthPole : mat :=
  mkmat (mkvec (-1) 0 0)
        (mkvec 0 (-1) 0)
        (mkvec 0 0 1).

Definition ecef2enu (lat0 lon0 : R) : Rotation :=
  let sColat := sin (PI / 2 - lat0) in
  let cColat := cos (PI / 2 - lat0) in
  let MatLat := mkmat (mkvec cColat 0 sColat)
                      (mkvec 0 1 0)
                      (mkvec (- sColat) 0 cColat) in
  let sLon := sin lon0 in
  let cLon := cos lon0 in
  let Matlon := mkmat (mkvec cLon (- sLon) 0)
                      (mkvec sLon cLon 0)
                      (mkvec 0 0 1) in
  from_dcm
    (mdot (mkmat (mkvec 0 (-1) 0) (mkvec 1 0 0) (mkvec 0 0 1))
          (transpose (mdot Matlon (mdot MatLat MatNorthPole)))).

End Ecef2enu.

(** ** rbd_translate *)

(** The two call shapes of [rbd_translate]: [gps_positions.ndim == 1] with
    one rotation, or a sequence of positions with a sequence of rotations. *)
Inductive translate_args : Type :=
| SinglePair (gps_position : vec) (attitude : Rotation)
| Parallel (gps_positions : list vec) (attitudes : list Rotation).

Inductive translate_result : Type :=
| OneVec (v : vec)
| ManyVec (vs : list vec).

Definition rbd_translate (args : translate_args) (trans : vec)
  : py translate_result :=
  match args with
  | SinglePair gps_positions attitudes =>
      Returns (OneVec
        (apply attitudes (vsub (apply attitudes gps_positions false) trans) true))
  | Parallel gps_positions attitudes =>
      car_pos ← for_each (range 0 (length gps_positions))
        (fun i car_pos =>
           att ← index attitudes i;
           pos ← index gps_positions i;
           Returns (car_pos ++
             [apply att (vsub (apply att pos false) trans) true]))
        [];
      Returns (ManyVec car_pos)
  end.

(** One element of the result of [rbd_translate]. *)
Definition translate_one (trans : vec) (pos : vec) (att : Rotation) : vec :=
  apply att (vsub (apply att pos false) trans) true.

(** ** rbd_translate in float64

    The same function over binary64 floats. A scipy [Rotation] keeps a
    unit quaternion in float64, and [apply] multiplies by the matrix it
    rebuilds from that quaternion: [as_dcm64] is that matrix, [apply64]
    the product with it, or with its transpose for [inverse=True]. *)






Section Float64.
Import PrimFloat.
Local Open Scope float_scope.








End Float64.

(** ** Insertion-ordered dictionaries

    A Python [dict] iterates in insertion order; assigning to a key that is
    already present keeps the key at its place. *)

Abbreviation dict K V := (list (K * V)).

Section Dict.
Context {K : Type} `{EqDecision K} {V : Type}.

(** [d.get(k)] *)
Fixpoint dict_get (d : dict K V) (k : K) : option V :=
  match d with
  | [] => None
  | (k', v) :: d' => if decide (k' = k) then Some v else dict_get d' k
  end.

(** [d[k] = v] *)
Fixpoint dict_set (d : dict K V) (k : K) (v : V) : dict K V :=
  match d with
  | [] => [(k, v)]
  | (k', v') :: d' =>
      if decide (k' = k) then (k', v) :: d' else (k', v') :: dict_set d' k v
  end.

(** [list(d.keys())] and [list(d.values())] *)
Definition dict_keys (d : dict K V) : list K := d.*1.
Definition dict_values (d : dict K V) : list V := d.*2.
End Dict.

(** ** The object store

    The mutable objects an estimator refers to (numpy arrays, rotations,
    the innovation pair) live in a store; an attribute of the estimator
    holds a reference into it, so that two estimator objects can share a
    field. *)

Abbreviation loc := nat.

Inductive value : Type :=
| VVec (v : vec)
| VRot (r : Rotation)
| VInnov (Z : vec) (S : mat).

Abbreviation heap := (list value).

(** Modelled from the spec: the class of the fused estimator ([kalman]) is
    not part of [recorder.py]; only its attributes [position], [attitude]
    and [innovation] are used. An estimator object is its attribute
    dictionary, from attribute names to references. *)
Abbreviation instance := (dict string loc).

(** [getattr(obj, name)], dereferenced. A reference outside the store
    cannot arise in Python; it is reported as [IndexError] on the store. *)
Definition getattr (h : heap) (obj : instance) (name : string) : py value :=
  match dict_get obj name with
  | None => Raises AttributeError
  | Some l => index h l
  end.

(** [copy.deepcopy]: every object reachable from the attributes is copied
    to a fresh reference; [memo] maps the references already copied to
    their copies, so that sharing inside the object is preserved. *)
Fixpoint deepcopy_attrs (h : heap) (memo : dict loc loc) (attrs : instance)
  : py (heap * dict loc loc * instance) :=
  match attrs with
  | [] => Returns (h, memo, [])
  | (name, l) :: rest =>
      '(h1, memo1, l') ←
        match dict_get memo l with
        | Some l' => Returns (h, memo, l')
        | None => v ← index h l;
                  Returns (h ++ [v], dict_set memo l (length h), length h)
        end;
      '(h2, memo2, rest') ← deepcopy_attrs h1 memo1 rest;
      Returns (h2, memo2, (name, l') :: rest')
  end.

Definition deepcopy (h : heap) (obj : instance) : py (heap * instance) :=
  '(h', _, obj') ← deepcopy_attrs h [] obj;
  Returns (h', obj').

(** ** class Recorder *)

Section Recorder.
Context {K : Type} `{EqDecision K}.

(** The recorder together with the store it works on: [kalman] is the
    live estimator handed to [__init__], [kalman_record] the dictionary
    of snapshots. The [reader] is a separate collaborator, below. *)
Record Recorder : Type := mkRecorder {
  store : heap;
  kalman : instance;
  kalman_record : dict K instance
}.

(** [Recorder.__init__] *)
Definition init (h : heap) (kalman : instance) : Recorder :=
  mkRecorder h kalman [].

(** [Recorder.record] *)
Definition record (ts : K) (self : Recorder) : py Recorder :=
  '(h', snapshot) ← deepcopy (store self) (kalman self);
  Returns (mkRecorder h' (kalman self)
                      (dict_set (kalman_record self) ts snapshot)).

(** [Recorder.get_positions] *)
Definition get_positions (self : Recorder) : py (list value) :=
  mapM (fun kalman => getattr (store self) kalman "position")
       (dict_values (kalman_record self)).

(** [Recorder.get_attitude] *)
Definition get_attitude (self : Recorder) : py (list value) :=
  mapM (fun kalman => getattr (store self) kalman "attitude")
       (dict_values (kalman_record self)).

(** *** The owner of the live estimator

    The filter that owns [kalman] changes it between two calls of
    [record]:
    - [SetItem name v] is [kalman.name[...] = v], a write into the object
      the attribute refers to;
    - [SetAttr name v] is [kalman.name = v] for a new object [v];
    - [Rebind name src] is [kalman.name = kalman.src]. *)
Inductive mutation : Type :=
| SetItem (name : string) (v : value)
| SetAttr (name : string) (v : value)
| Rebind (name src : string).

(** A failing statement (an attribute that does not exist) leaves the
    state as it is. *)
Definition mutate (m : mutation) (self : Recorder) : Recorder :=
  match m with
  | SetItem name v =>
      match dict_get (kalman self) name with
      | Some l => mkRecorder (<[l := v]> (store self)) (kalman self)
                             (kalman_record self)
      | None => self
      end
  | SetAttr name v =>
      mkRecorder (store self ++ [v])
                 (dict_set (kalman self) name (length (store self)))
                 (kalman_record self)
  | Rebind name src =>
      match dict_get (kalman self) src with
      | Some l => mkRecorder (store self) (dict_set (kalman self) name l)
                             (kalman_record self)
      | None => self
      end
  end.

Definition mutates (ms : list mutation) (self : Recorder) : Recorder :=
  foldl (fun s m => mutate m s) self ms.

(** A run of the filter loop: the estimator is updated and recorded. *)
Inductive event : Type :=
| Mutate (m : mutation)
| Record_ (ts : K).

Fixpoint run (evs : list event) (self : Recorder) : py Recorder :=
  match evs with
  | [] => Returns self
  | Mutate m :: rest => run rest (mutate m self)
  | Record_ ts :: rest => self' ← record ts self; run rest self'
  end.

(** The timestamps recorded by a run, in call order. *)
Definition recorded (evs : list event) : list K :=
  omap (fun ev => match ev with Record_ ts => Some ts | Mutate _ => None end) evs.
End Recorder.

Arguments Recorder K : clear implicits.
Arguments mutation : clear implicits.
Arguments event K : clear implicits.

(** ** Dead-reckoning integration: get_measured_attitude and
       get_measured_positions *)

Section Integrator.
Context {T RD : Type}.

(** The sensor-log reader, as far as [recorder.py] calls it. [T] is the
    type of timestamps and [RD] the type of radar frames; the frame
    aligner is the method [image_transformation_from] of a frame. *)
Record Reader : Type := mkReader {
  get_gps_pos : nat -> vec;
  get_gps_att : nat -> Rotation;
  (** [reader.get_timestamps(0, np.inf)] *)
  get_timestamps : list T;
  get_radardata : T -> RD;
  (** [frame.image_transformation_from(earlier)] *)
  image_transformation_from : RD -> RD -> vec * Rotation
}.

Definition attitude_step (reader : Reader) (times : list T)
    (i : nat) (measured_att : list Rotation) : py (list Rotation) :=
  t_i ← index times i;
  t_prev ← index times (i - 1);
  let '(_, rotation) :=
    image_transformation_from reader (get_radardata reader t_i)
                                     (get_radardata reader t_prev) in
  prev ← index_last measured_att;
  Returns (measured_att ++ [rot_mul prev rotation]).

Definition get_measured_attitude (reader : Reader) : py (list Rotation) :=
  let measured_att := [get_gps_att reader 0] in
  let times := get_timestamps reader in
  for_each (range 1 (length times)) (attitude_step reader times) measured_att.

Definition position_step (reader : Reader) (times : list T)
    (i : nat) (st : list vec * list Rotation) : py (list vec * list Rotation) :=
  let '(measured_pos, measured_att) := st in
  t_i ← index times i;
  t_prev ← index times (i - 1);
  let '(translation, rotation) :=
    image_transformation_from reader (get_radardata reader t_i)
                                     (get_radardata reader t_prev) in
  last_pos ← index_last measured_pos;
  last_att ← index_last measured_att;
  let measured_pos := measured_pos ++ [vadd last_pos (apply last_att translation true)] in
  prev ← index_last measured_att;
  Returns (measured_pos, measured_att ++ [rot_mul prev rotation]).

(** The loop of [get_measured_positions], with both of its local lists. *)
Definition get_measured_positions_loop (reader : Reader)
  : py (list vec * list Rotation) :=
  let measured_pos := [get_gps_pos reader 0] in
  let measured_att := [get_gps_att reader 0] in
  let times := get_timestamps reader in
  for_each (range 1 (length times)) (position_step reader times)
           (measured_pos, measured_att).

Definition get_measured_positions (reader : Reader) : py (list vec) :=
  fst <$> get_measured_positions_loop reader.

(** The relative transform the aligner returns at index [i]. *)
Definition transform_at (reader : Reader) (i : nat) : option (vec * Rotation) :=
  t_i ← get_timestamps reader !! i;
  t_prev ← get_timestamps reader !! (i - 1);
  Some (image_transformation_from reader (get_radardata reader t_i)
                                         (get_radardata reader t_prev)).

(** [pos[i] = pos[i-1] + att[i-1].apply(translation[i], inverse)] for
    [i = 1..N-1]. *)
Definition position_recurrence (inverse : bool) (reader : Reader)
    (pos : list vec) (att : list Rotation) : Prop :=
  forall i, 1 <= i < length (get_timestamps reader) ->
    exists p a tr,
      pos !! (i - 1) = Some p /\ att !! (i - 1) = Some a /\
      transform_at reader i = Some tr /\
      pos !! i = Some (vadd p (apply a tr.1 inverse)).

(** [att[i] = att[i-1] * rotation[i]] for [i = 1..N-1]. *)
Definition attitude_recurrence (reader : Reader) (att : list Rotation) : Prop :=
  forall i, 1 <= i < length (get_timestamps reader) ->
    exists a tr,
      att !! (i - 1) = Some a /\
      transform_at reader i = Some tr /\
      att !! i = Some (rot_mul a tr.2).

(** What the loop of [get_measured_positions] has built after [k] rounds. *)
Definition integrated (reader : Reader) (k : nat) (pos : list vec) (att : list Rotation) : Prop :=
  length pos = S k /\ length att = S k /\
  pos !! 0 = Some (get_gps_pos reader 0) /\
  att !! 0 = Some (get_gps_att reader 0) /\
  forall i, 1 <= i <= k ->
    exists p a tr,
      pos !! (i - 1) = Some p /\ att !! (i - 1) = Some a /\
      transform_at reader i = Some tr /\
      pos !! i = Some (vadd p (apply a tr.1 true)) /\
      att !! i = Some (rot_mul a tr.2).

End Integrator.

Arguments Reader T RD : clear implicits.
Arguments position_step : simpl never.
Arguments attitude_step : simpl never.

(** ** Well-formed stores *)

Section WellFormed.
Context {K : Type} `{EqDecision K}.

(** Every reference of [obj] points into the store. *)
Definition closed (h : heap) (obj : instance) : Prop :=
  Forall (fun l => l < length h) (dict_values obj).

(** [snap] shares no object with [live]. *)
Definition separated (live snap : instance) : Prop :=
  forall l, l ∈ dict_values snap -> l ∉ dict_values live.

(** The state of a recorder whose snapshots were all made by [record]. *)
Definition wf (self : Recorder K) : Prop :=
  closed (store self) (kalman self) /\
  Forall (fun snap => closed (store self) snap /\ separated (kalman self) snap)
         (dict_values (kalman_record self)).

(** [self.kalman_record[ts].name] *)
Definition read_snapshot (self : Recorder K) (ts : K) (name : string) : py value :=
  match dict_get (kalman_record self) ts with
  | Some snapshot => getattr (store self) snapshot name
  | None => Raises KeyError
  end.

(** The distinct elements of [l], each at the place of its first
    occurrence: the key order of a dictionary filled in the order [l]. *)
Definition first_occurrences (l : list K) : list K :=
  foldl (fun acc x => if decide (x ∈ acc) then acc else acc ++ [x]) [] l.

End WellFormed.

(** [obj'] holds in the store [h'] what [obj] holds in [h], attribute by
    attribute, at references that did not exist in [h]. *)
Definition copy_of (h h' : heap) (obj obj' : instance) : Prop :=
  Forall2 (fun a a' => a.1 = a'.1 /\ length h <= a'.2 < length h' /\
                       h' !! a'.2 = h !! a.2) obj obj'.

(** The memo of a [deepcopy] that started in the store [h0] and has
    reached the store [h]. *)
Definition memo_ok (h0 h : heap) (memo : dict loc loc) : Prop :=
  forall l l', dict_get memo l = Some l' ->
    length h0 <= l' < length h /\ h !! l' = h0 !! l.


(** ** The statements of the specification that the code is compared with *)

Section SpecStatements.
Local Open Scope Z_scope.

(** Follows the spec's words: the entries of a dictionary ordered by
    ascending timestamp key. *)
Fixpoint insert_by_key {V : Type} (k : Z) (v : V) (d : dict Z V) : dict Z V :=
  match d with
  | [] => [(k, v)]
  | (k', v') :: d' =>
      if decide (k <= k') then (k, v) :: (k', v') :: d'
      else (k', v') :: insert_by_key k v d'
  end.

Definition sort_by_key {V : Type} (d : dict Z V) : dict Z V :=
  foldr (fun kv acc => insert_by_key kv.1 kv.2 acc) [] d.

(** Follows the spec's words: [positions()] projects the stored snapshots
    ordered by ascending timestamp key. *)
Definition positions_ascending (self : Recorder Z) : py (list value) :=
  mapM (fun kalman => getattr (store self) kalman "position")
       (dict_values (sort_by_key (kalman_record self))).

(** A strictly increasing timestamp sequence. *)
Fixpoint strictly_increasing (ts : list Z) : Prop :=
  match ts with
  | [] => True
  | t :: rest =>
      match rest with
      | [] => True
      | t' :: _ => t < t' /\ strictly_increasing rest
      end
  end.

Definition fails_fast {A : Type} (o : py A) : Prop := exists e, o = Raises e.

(** Follows the spec's words: a timestamp sequence that is not strictly
    increasing makes both integrators fail instead of returning. *)
Definition ordering_checked {RD : Type} (reader : Reader Z RD) : Prop :=
  ~ strictly_increasing (get_timestamps reader) ->
  fails_fast (get_measured_positions reader) /\
  fails_fast (get_measured_attitude reader).

End SpecStatements.

(** ** Concrete inputs *)

Section Examples.
Local Open Scope R_scope.

(** A quarter turn about the third axis. *)
Definition quarter_turn : Rotation :=
  from_dcm (mkmat (mkvec 0 (-1) 0) (mkvec 1 0 0) (mkvec 0 0 1)).

(** A reader over the timestamps [times] whose seed pose is the origin
    turned by [quarter_turn], and whose aligner reports one unit of
    motion along the first body axis and no rotation at every step. *)
Definition turned_reader (times : list Z) : Reader Z Z :=
  mkReader (fun _ => vzero) (fun _ => quarter_turn) times (fun t => t)
           (fun _ _ => (mkvec 1 0 0, rot_identity)).

(** The scenario of the specification: seed (6378137, 0, 0) with the
    identity attitude, unit steps along the first axis. *)
Definition straight_reader (times : list Z) : Reader Z Z :=
  mkReader (fun _ => mkvec 6378137 0 0) (fun _ => rot_identity) times
           (fun t => t) (fun _ _ => (mkvec 1 0 0, rot_identity)).

(** An estimator with a position and an attitude. *)
Definition estimator_store : heap := [VVec vzero; VRot rot_identity].
Definition estimator : instance := [("position"%string, 0%nat); ("attitude"%string, 1%nat)].

Definition at_position (x : R) : event Z :=
  Mutate (SetItem "position" (VVec (mkvec x 0 0))).

(** The estimator moves to x = 3, 1, 2 and is recorded at the timestamps
    3, 1, 2 in this order. *)
Definition out_of_order_run : list (event Z) :=
  [at_position 3; Record_ 3%Z; at_position 1; Record_ 1%Z;
   at_position 2; Record_ 2%Z].

(** A recorder whose estimator, and whose snapshot under the timestamp 5,
    have an attitude and no position. *)
Definition blind_recorder : Recorder Z :=
  mkRecorder [VRot rot_identity; VRot rot_identity]
             [("attitude"%string, 0%nat)]
             [(5%Z, [("attitude"%string, 1%nat)])].

End Examples.

(** ** ecef2lla

    [pyproj.transform] is a function of an external library: the
    conversion of one point is a parameter, and on arrays it works element
    by element. *)

Inductive ndarray : Type :=
| Vec1 (p : vec)
| Mat2 (rows : list vec).

Section Ecef2lla.
Variable transform : R -> R -> R -> R * R * R.

(** [pyproj.transform(ecef, lla, xs, ys, zs)] on three arrays *)
Definition transform_arrays (xs ys zs : list R) : list R * list R * list R :=
  let pts := zip_with (fun x yz => transform x yz.1 yz.2) xs (zip ys zs) in
  ((fun t => t.1.1) <$> pts, (fun t => t.1.2) <$> pts, (fun t => t.2) <$> pts).

(** [np.array([lon, lat, alt]).T] for three arrays *)
Definition stack_T (lon lat alt : list R) : list vec :=
  zip_with (fun lo la_al => mkvec lo la_al.1 la_al.2) lon (zip lat alt).

Definition ecef2lla (pos : ndarray) : ndarray :=
  match pos with
  | Vec1 p =>
      let '(lon, lat, alt) := transform (vx p) (vy p) (vz p) in
      Vec1 (mkvec lon lat alt)
  | Mat2 rows =>
      let '(lon, lat, alt) :=
        transform_arrays (vx <$> rows) (vy <$> rows) (vz <$> rows) in
      Mat2 (stack_T lon lat alt)
  end.
End Ecef2lla.

(** ** plot_trajectory

    [trajectory = q.apply(pos - pos[0])]: the positions relative to the
    first one, in the frame of [q]. *)
Definition centered_trajectory (q : Rotation) (pos : list vec) : py (list vec) :=
  p0 ← index pos 0;
  Returns ((fun p => apply q (vsub p p0) false) <$> pos).

(** ** Readers derived from a reader *)

(** The reader after one more frame, at timestamp [t], was logged. *)
Definition append_timestamp {T RD : Type} (reader : Reader T RD) (t : T)
  : Reader T RD :=
  mkReader (get_gps_pos reader) (get_gps_att reader)
           (get_timestamps reader ++ [t])
           (get_radardata reader) (image_transformation_from reader).

(** * Proofs *)

(** Equalities of results up to real arithmetic in the coordinates. *)
Ltac vec_arith :=
  cbv [vadd vsub vzero apply mvec transpose col1 col2 col3 vdot as_dcm
       rot_mul mdot rot_identity identity_mat quarter_turn
       row1 row2 row3 vx vy vz fst snd];
  repeat first [lra | progress f_equal].

(** ** The monad and the loops *)

Lemma for_each_app {S : Type} (l1 l2 : list nat) (body : nat -> S -> py S) (s : S) :
  for_each (l1 ++ l2) body s = s' ← for_each l1 body s; for_each l2 body s'.
Proof.
  revert s. induction l1 as [|i l1 IH]; intros s; simpl; [done|].
  destruct (body i s) as [s'|e]; simpl; [apply IH | done].
Qed.

Lemma for_each_snoc {S : Type} (l : list nat) (i : nat) (body : nat -> S -> py S)
    (s s' : S) :
  for_each l body s = Returns s' ->
  for_each (l ++ [i]) body s = body i s'.
Proof.
  intros Hl. rewrite for_each_app, Hl. simpl.
  destruct (body i s'); done.
Qed.

Lemma index_lookup {A : Type} (xs : list A) (i : nat) (x : A) :
  xs !! i = Some x -> index xs i = Returns x.
Proof. intros Hx. unfold index. by rewrite Hx. Qed.

Lemma index_out_of_range {A : Type} (xs : list A) (i : nat) :
  length xs <= i -> index xs i = Raises IndexError.
Proof. intros Hi. unfold index. by rewrite lookup_ge_None_2. Qed.

Lemma index_last_nonempty {A : Type} (xs : list A) :
  xs <> [] -> exists x, index_last xs = Returns x.
Proof.
  intros Hxs. unfold index_last.
  destruct (last xs) as [x|] eqn:Hlast; [by exists x|by apply last_None in Hlast].
Qed.

Lemma index_last_snoc {A : Type} (xs : list A) (x : A) :
  index_last (xs ++ [x]) = Returns x.
Proof. unfold index_last. by rewrite last_snoc. Qed.

Lemma index_last_lookup {A : Type} (xs : list A) (n : nat) (x : A) :
  length xs = S n -> xs !! n = Some x -> index_last xs = Returns x.
Proof.
  intros Hlen Hx. unfold index_last.
  rewrite last_lookup, Hlen. simpl. by rewrite Hx.
Qed.

(** ** Vectors and rotations *)

Lemma vec_eq (u v : vec) :
  vx u = vx v -> vy u = vy v -> vz u = vz v -> u = v.
Proof. destruct u, v; simpl; intros; subst; done. Qed.

Lemma mat_eq (m n : mat) :
  row1 m = row1 n -> row2 m = row2 n -> row3 m = row3 n -> m = n.
Proof. destruct m, n; simpl; intros; subst; done. Qed.







(** ** rbd_translate *)

Lemma rbd_translate_loop (ps : list vec) (atts : list Rotation) (trans : vec) (k : nat) :
  k <= length ps -> k <= length atts ->
  for_each (seq 0 k)
    (fun i car_pos =>
       att ← index atts i;
       pos ← index ps i;
       Returns (car_pos ++ [apply att (vsub (apply att pos false) trans) true]))
    [] = Returns (take k (zip_with (translate_one trans) ps atts)).
Proof.
  induction k as [|k IH]; intros Hps Hatts; [done|].
  rewrite seq_S. simpl.
  erewrite for_each_snoc; [|apply IH; lia].
  destruct (lookup_lt_is_Some_2 ps k) as [p Hp]; [lia|].
  destruct (lookup_lt_is_Some_2 atts k) as [a Ha]; [lia|].
  rewrite (index_lookup _ _ _ Ha), (index_lookup _ _ _ Hp). simpl.
  f_equal. symmetry. apply take_S_r.
  rewrite lookup_zip_with, Hp. simpl. by rewrite Ha.
Qed.

Lemma rbd_translate_parallel (ps : list vec) (atts : list Rotation) (trans : vec) :
  length ps <= length atts ->
  rbd_translate (Parallel ps atts) trans
  = Returns (ManyVec (zip_with (translate_one trans) ps atts)).
Proof.
  intros Hlen. unfold rbd_translate, range.
  rewrite Nat.sub_0_r, rbd_translate_loop by lia. simpl.
  do 2 f_equal. apply take_ge. rewrite length_zip_with. lia.
Qed.

(** With fewer attitudes than positions the loop runs out of attitudes. *)
Lemma rbd_translate_short (ps : list vec) (atts : list Rotation) (trans : vec) :
  length atts < length ps ->
  rbd_translate (Parallel ps atts) trans = Raises IndexError.
Proof.
  intros Hlen. unfold rbd_translate, range. rewrite Nat.sub_0_r.
  replace (length ps) with (length atts + S (length ps - S (length atts))) by lia.
  rewrite seq_app, for_each_app, rbd_translate_loop by lia. simpl.
  rewrite (index_out_of_range atts) by lia. done.
Qed.


(** ** ecef2enu *)

Section Ecef2enuProofs.
Local Open Scope R_scope.

(** The direction cosine matrix of [ecef2enu], entry by entry: its rows
    are the east, north and up unit vectors. *)
Lemma ecef2enu_dcm (lat lon : R) :
  as_dcm (ecef2enu lat lon)
  = mkmat (mkvec (- sin lon) (cos lon) 0)
          (mkvec (- sin lat * cos lon) (- sin lat * sin lon) (cos lat))
          (mkvec (cos lat * cos lon) (cos lat * sin lon) (sin lat)).
Proof.
  unfold ecef2enu. rewrite sin_shift, cos_shift.
  apply mat_eq; apply vec_eq;
    cbv [as_dcm MatNorthPole mdot transpose col1 col2 col3 vdot
         row1 row2 row3 vx vy vz]; ring.
Qed.

Lemma sin_cos_square (x : R) : sin x * sin x + cos x * cos x = 1.
Proof. pose proof (sin2_cos2 x) as Hx. unfold Rsqr in Hx. lra. Qed.

(** In exact arithmetic, [rot.from_dcm] receives a proper orthogonal
    matrix. *)
Lemma ecef2enu_is_rotation (lat lon : R) : is_rotation (ecef2enu lat lon).
Proof.
  unfold is_rotation, proper_orthogonal. rewrite ecef2enu_dcm.
  pose proof (sin_cos_square lat) as Hlat.
  pose proof (sin_cos_square lon) as Hlon.
  set (s := sin lat) in *. set (c := cos lat) in *.
  set (sl := sin lon) in *. set (cl := cos lon) in *.
  split; [apply mat_eq; apply vec_eq|];
    cbv [identity_mat mdot transpose col1 col2 col3 vdot det
         row1 row2 row3 vx vy vz]; nsatz.
Qed.


End Ecef2enuProofs.

(** ** The integrators *)

Section IntegratorProofs.
Context {T RD : Type} (reader : Reader T RD).

Lemma transform_at_in_range (i : nat) :
  1 <= i < length (get_timestamps reader) ->
  exists t_i t_prev,
    get_timestamps reader !! i = Some t_i /\
    get_timestamps reader !! (i - 1) = Some t_prev /\
    transform_at reader i
    = Some (image_transformation_from reader (get_radardata reader t_i)
                                             (get_radardata reader t_prev)).
Proof.
  intros Hi.
  destruct (lookup_lt_is_Some_2 (get_timestamps reader) i) as [t_i Hti]; [lia|].
  destruct (lookup_lt_is_Some_2 (get_timestamps reader) (i - 1)) as [t_p Htp]; [lia|].
  exists t_i, t_p. unfold transform_at. rewrite Hti, Htp. done.
Qed.

Lemma position_step_integrated (k : nat) (pos : list vec) (att : list Rotation) :
  S k < length (get_timestamps reader) ->
  integrated reader k pos att ->
  exists pos' att',
    position_step reader (get_timestamps reader) (S k) (pos, att)
    = Returns (pos', att') /\
    integrated reader (S k) pos' att'.
Proof.
  intros Hk (Hlp & Hla & Hp0 & Ha0 & Hrec).
  destruct (transform_at_in_range (S k)) as (t_i & t_p & Hti & Htp & Htr); [lia|].
  destruct (lookup_lt_is_Some_2 pos k) as [p Hp]; [lia|].
  destruct (lookup_lt_is_Some_2 att k) as [a Ha]; [lia|].
  unfold position_step.
  rewrite (index_lookup _ _ _ Hti), (index_lookup _ _ _ Htp). simpl.
  destruct (image_transformation_from reader _ _) as [translation rotation] eqn:Hitf.
  rewrite (index_last_lookup _ _ _ Hlp Hp), (index_last_lookup _ _ _ Hla Ha).
  simpl. eexists _, _. split; [done|].
  split_and!.
  - rewrite length_app. simpl. lia.
  - rewrite length_app. simpl. lia.
  - rewrite lookup_app_l by lia. done.
  - rewrite lookup_app_l by lia. done.
  - intros i Hi. destruct (decide (i = S k)) as [->|Hne].
    + exists p, a, (translation, rotation).
      replace (S k - 1) with k by lia.
      rewrite !lookup_app_l by lia.
      rewrite !list_lookup_middle by lia. done.
    + destruct (Hrec i) as (p' & a' & tr & Hp' & Ha' & Htr' & Hpi & Hai); [lia|].
      exists p', a', tr. rewrite !lookup_app_l by lia. done.
Qed.

Lemma position_loop_integrated (k : nat) :
  k <= length (get_timestamps reader) - 1 ->
  exists pos att,
    for_each (seq 1 k) (position_step reader (get_timestamps reader))
             ([get_gps_pos reader 0], [get_gps_att reader 0])
    = Returns (pos, att) /\
    integrated reader k pos att.
Proof.
  induction k as [|k IH]; intros Hk.
  - eexists _, _. split; [done|]. split_and!; try done. intros i Hi. lia.
  - destruct IH as (pos & att & Hloop & Hint); [lia|].
    destruct (position_step_integrated k pos att) as (pos' & att' & Hstep & Hint');
      [lia|done|].
    exists pos', att'. split; [|done].
    rewrite seq_S. by erewrite for_each_snoc.
Qed.

(** The attitude loop is the second component of the position loop. *)
Lemma attitude_step_of_position_step (i : nat) (pos : list vec) (att : list Rotation) :
  pos <> [] ->
  snd <$> position_step reader (get_timestamps reader) i (pos, att)
  = attitude_step reader (get_timestamps reader) i att.
Proof.
  intros Hpos. unfold position_step, attitude_step.
  destruct (index (get_timestamps reader) i) as [t_i|]; simpl; [|done].
  destruct (index (get_timestamps reader) (i - 1)) as [t_p|]; simpl; [|done].
  destruct (image_transformation_from reader _ _) as [translation rotation].
  destruct (index_last_nonempty pos Hpos) as [p ->]. simpl.
  destruct (index_last att) as [a|]; done.
Qed.

Lemma position_step_nonempty (i : nat) (st st' : list vec * list Rotation) :
  position_step reader (get_timestamps reader) i st = Returns st' -> st'.1 <> [].
Proof.
  destruct st as [pos att]. unfold position_step.
  destruct (index _ i); simpl; [|done].
  destruct (index _ (i - 1)); simpl; [|done].
  destruct (image_transformation_from reader _ _).
  destruct (index_last pos); simpl; [|done].
  destruct (index_last att); simpl; [|done].
  intros [= <-]. simpl. by destruct pos.
Qed.

Lemma attitude_loop_of_position_loop (idx : list nat) (pos : list vec) (att : list Rotation) :
  pos <> [] ->
  snd <$> for_each idx (position_step reader (get_timestamps reader)) (pos, att)
  = for_each idx (attitude_step reader (get_timestamps reader)) att.
Proof.
  revert pos att. induction idx as [|i idx IH]; intros pos att Hpos; simpl; [done|].
  rewrite <- (attitude_step_of_position_step i pos att) by done.
  destruct (position_step _ _ i (pos, att)) as [[pos' att']|e] eqn:Hstep; simpl; [|done].
  apply IH. by apply (position_step_nonempty _ _ _ Hstep).
Qed.

Lemma measured_attitude_of_loop :
  get_measured_attitude reader = snd <$> get_measured_positions_loop reader.
Proof.
  unfold get_measured_attitude, get_measured_positions_loop.
  by rewrite attitude_loop_of_position_loop.
Qed.

(** Both integrators return, and what they return. *)
Lemma integrators_return :
  exists pos att,
    get_measured_positions_loop reader = Returns (pos, att) /\
    get_measured_positions reader = Returns pos /\
    get_measured_attitude reader = Returns att /\
    integrated reader (length (get_timestamps reader) - 1) pos att.
Proof.
  destruct (position_loop_integrated (length (get_timestamps reader) - 1))
    as (pos & att & Hloop & Hint); [lia|].
  exists pos, att.
  assert (get_measured_positions_loop reader = Returns (pos, att)) as Heq
    by exact Hloop.
  rewrite measured_attitude_of_loop. unfold get_measured_positions.
  rewrite Heq. done.
Qed.

End IntegratorProofs.

(** ** Dictionaries *)

Section DictProofs.
Context {K : Type} `{EqDecision K} {V : Type}.
Implicit Types (d : dict K V) (k : K) (v : V).

Lemma dict_get_set d k v k' :
  dict_get (dict_set d k v) k' = if decide (k = k') then Some v else dict_get d k'.
Proof.
  induction d as [|[k0 v0] d IH]; simpl.
  - repeat case_decide; done.
  - repeat (case_decide; simpl); simplify_eq; done.
Qed.

Lemma dict_get_set_eq d k v : dict_get (dict_set d k v) k = Some v.
Proof. by rewrite dict_get_set, decide_True. Qed.

Lemma dict_get_values d k v : dict_get d k = Some v -> v ∈ dict_values d.
Proof.
  unfold dict_values. induction d as [|[k0 v0] d IH]; simpl; [done|].
  case_decide; intros Hget; simplify_eq; [left | right; by apply IH].
Qed.

Lemma dict_values_set d k v x :
  x ∈ dict_values (dict_set d k v) -> x = v \/ x ∈ dict_values d.
Proof.
  unfold dict_values. induction d as [|[k0 v0] d IH]; simpl.
  - rewrite list_elem_of_singleton. auto.
  - case_decide; cbn [fmap list_fmap snd]; rewrite !elem_of_cons.
    + intros [->|Hx]; auto.
    + intros [->|Hx]; [auto|]. destruct (IH Hx); auto.
Qed.

Lemma dict_keys_set d k v :
  dict_keys (dict_set d k v)
  = if decide (k ∈ dict_keys d) then dict_keys d else dict_keys d ++ [k].
Proof.
  unfold dict_keys. induction d as [|[k0 v0] d IH].
  - destruct (decide (k ∈ [])) as [Hin|_]; [by apply elem_of_nil in Hin | done].
  - cbn [dict_set]. destruct (decide (k0 = k)) as [->|Hne].
    + rewrite decide_True; [done | cbn; left].
    + cbn [fmap list_fmap fst]. rewrite IH.
      destruct (decide (k ∈ d.*1)) as [Hin|Hnin].
      * rewrite decide_True; [done | by right].
      * rewrite decide_False; [done|]. rewrite not_elem_of_cons. done.
Qed.

Lemma dict_keys_set_NoDup d k v :
  NoDup (dict_keys d) -> NoDup (dict_keys (dict_set d k v)).
Proof.
  intros Hd. rewrite dict_keys_set. case_decide; [done|].
  apply NoDup_app. split_and!; [done| |apply NoDup_singleton].
  intros x Hx Hx'. apply list_elem_of_singleton in Hx'. by subst.
Qed.

End DictProofs.

Lemma mapM_py_ext {A B : Type} (f g : A -> py B) (l : list A) :
  (forall x, x ∈ l -> f x = g x) -> mapM f l = mapM g l.
Proof.
  induction l as [|x l IH]; intros Hfg; simpl; [done|].
  rewrite (Hfg x) by left. rewrite IH; [done|].
  intros y Hy. apply Hfg. by right.
Qed.

(** Enumerating the values of a dictionary is looking up its keys in
    their order. *)
Lemma mapM_dict_values {K : Type} `{EqDecision K} {V B : Type}
    (d : dict K V) (f : V -> py B) :
  NoDup (dict_keys d) ->
  mapM f (dict_values d)
  = mapM (fun k => match dict_get d k with
                   | Some v => f v
                   | None => Raises KeyError
                   end) (dict_keys d).
Proof.
  unfold dict_keys, dict_values.
  induction d as [|[k0 v0] d IH]; intros Hnd; [done|].
  rewrite !fmap_cons in *. apply NoDup_cons in Hnd as [Hk0 Hnd].
  cbn [mapM dict_get fst snd].
  rewrite decide_True by done. rewrite IH by done.
  destruct (f v0) as [y|e]; simpl; [|done].
  f_equal. apply mapM_py_ext. intros k Hk.
  rewrite decide_False; [done|]. intros ->. done.
Qed.

(** ** deepcopy *)

Lemma closed_prefix (h h' : heap) (obj : instance) :
  h `prefix_of` h' -> closed h obj -> closed h' obj.
Proof.
  intros Hpre Hclosed. eapply Forall_impl; [exact Hclosed|]. intros l Hl.
  simpl in Hl. apply prefix_length in Hpre. lia.
Qed.

Lemma memo_ok_prefix (h0 h h' : heap) (memo : dict loc loc) :
  h `prefix_of` h' -> memo_ok h0 h memo -> memo_ok h0 h' memo.
Proof.
  intros Hpre Hmemo l l' Hl. destruct (Hmemo l l' Hl) as [Hrange Hval].
  pose proof (prefix_length _ _ Hpre). split; [lia|].
  rewrite <- Hval. symmetry. apply prefix_lookup_lt; [lia | done].
Qed.

Lemma memo_ok_set (h0 h : heap) (memo : dict loc loc) (l : loc) (v : value) :
  h0 `prefix_of` h -> h0 !! l = Some v -> memo_ok h0 h memo ->
  memo_ok h0 (h ++ [v]) (dict_set memo l (length h)).
Proof.
  intros Hpre Hv Hmemo l1 l1'. rewrite dict_get_set.
  destruct (decide (l = l1)) as [<-|Hne].
  - intros [= <-]. pose proof (prefix_length _ _ Hpre).
    rewrite length_app, list_lookup_middle by done. simpl. split; [lia | done].
  - apply (memo_ok_prefix h0 h); [by apply prefix_app_r | done].
Qed.

Lemma copy_of_prefix (h0 h h' : heap) (obj obj' : instance) :
  h `prefix_of` h' -> copy_of h0 h obj obj' -> copy_of h0 h' obj obj'.
Proof.
  intros Hpre Hcopy. eapply Forall2_impl; [exact Hcopy|].
  intros a a' (Hname & Hrange & Hval). simpl in *. pose proof (prefix_length _ _ Hpre).
  split_and!; [done | lia | lia |].
  rewrite <- Hval. symmetry. apply prefix_lookup_lt; [lia | done].
Qed.

Lemma deepcopy_attrs_copies (h0 : heap) (attrs : instance) :
  forall (h : heap) (memo : dict loc loc),
    closed h0 attrs -> h0 `prefix_of` h -> memo_ok h0 h memo ->
    exists h' memo' attrs',
      deepcopy_attrs h memo attrs = Returns (h', memo', attrs') /\
      h `prefix_of` h' /\ memo_ok h0 h' memo' /\ copy_of h0 h' attrs attrs'.
Proof.
  induction attrs as [|[name l] rest IH]; intros h memo Hclosed Hpre Hmemo.
  - exists h, memo, []. split_and!; [done | done | done | constructor].
  - apply Forall_cons in Hclosed as [Hl Hrest]. simpl in Hl.
    cbn [deepcopy_attrs].
    destruct (dict_get memo l) as [l'|] eqn:Hget.
    + destruct (IH h memo Hrest Hpre Hmemo) as (h' & memo' & rest' & Hcopy & Hpre' & Hmemo' & Hrel).
      simpl. rewrite Hcopy. simpl. eexists _, _, _. split; [done|].
      split_and!; [done | done |]. constructor; [|done]. simpl.
      destruct (Hmemo l l' Hget) as [Hrange Hval].
      pose proof (prefix_length _ _ Hpre'). split_and!; [done | lia | lia |].
      rewrite <- Hval. symmetry. apply prefix_lookup_lt; [lia | done].
    + destruct (lookup_lt_is_Some_2 h0 l Hl) as [v Hv].
      assert (h !! l = Some v) as Hv' by (by eapply prefix_lookup_Some).
      rewrite (index_lookup _ _ _ Hv'). simpl.
      destruct (IH (h ++ [v]) (dict_set memo l (length h))) as
        (h' & memo' & rest' & Hcopy & Hpre' & Hmemo' & Hrel);
        [done | by etrans; [|apply prefix_app_r] | by apply memo_ok_set |].
      rewrite Hcopy. simpl. eexists _, _, _. split; [done|].
      split_and!; [by etrans; [apply prefix_app_r|] | done |].
      constructor; [|done]. simpl.
      pose proof (prefix_length _ _ Hpre). pose proof (prefix_length _ _ Hpre') as Hlen.
      rewrite length_app in Hlen. simpl in Hlen. split_and!; [done | lia | lia |].
      rewrite Hv. eapply prefix_lookup_Some; [|done].
      by apply list_lookup_middle.
Qed.

Lemma deepcopy_copies (h : heap) (obj : instance) :
  closed h obj ->
  exists h' obj',
    deepcopy h obj = Returns (h', obj') /\ h `prefix_of` h' /\ copy_of h h' obj obj'.
Proof.
  intros Hclosed.
  destruct (deepcopy_attrs_copies h obj h [] Hclosed) as
    (h' & memo' & obj' & Hcopy & Hpre & _ & Hrel); [done | by intros ?? |].
  exists h', obj'. unfold deepcopy. rewrite Hcopy. done.
Qed.

(** A copy reads as the original did. *)
Lemma getattr_copy_of (h h' : heap) (obj obj' : instance) (name : string) :
  copy_of h h' obj obj' -> getattr h' obj' name = getattr h obj name.
Proof.
  unfold getattr. induction 1 as [|[n l] [n' l'] obj obj' (Hname & _ & Hval) _ IH];
    [done|]. simpl in *. subst n'.
  destruct (decide (n = name)); [|done]. unfold index. by rewrite Hval.
Qed.

Lemma copy_of_closed (h h' : heap) (obj obj' : instance) :
  copy_of h h' obj obj' -> closed h' obj'.
Proof.
  unfold closed, dict_values. induction 1 as [|a a' obj obj' (_ & Hrange & _) _ IH];
    [constructor|]. rewrite fmap_cons. constructor; [lia | done].
Qed.

Lemma copy_of_fresh (h h' : heap) (obj obj' : instance) (l : loc) :
  copy_of h h' obj obj' -> l ∈ dict_values obj' -> length h <= l.
Proof.
  unfold dict_values. induction 1 as [|a a' obj obj' (_ & Hrange & _) _ IH].
  - intros Hl. by apply elem_of_nil in Hl.
  - rewrite fmap_cons, elem_of_cons. intros [->|Hl]; [lia | by apply IH].
Qed.

(** ** The recorder *)

Lemma getattr_prefix (h h' : heap) (obj : instance) (name : string) :
  h `prefix_of` h' -> closed h obj -> getattr h' obj name = getattr h obj name.
Proof.
  intros Hpre Hclosed. unfold getattr.
  destruct (dict_get obj name) as [l|] eqn:Hget; [|done].
  apply dict_get_values in Hget.
  unfold closed in Hclosed. rewrite Forall_forall in Hclosed.
  unfold index. by rewrite <- (prefix_lookup_lt h h' l) by auto.
Qed.

Lemma getattr_insert (h : heap) (obj : instance) (name : string) (l : loc) (v : value) :
  l ∉ dict_values obj -> getattr (<[l := v]> h) obj name = getattr h obj name.
Proof.
  intros Hl. unfold getattr.
  destruct (dict_get obj name) as [l0|] eqn:Hget; [|done].
  apply dict_get_values in Hget.
  unfold index. rewrite list_lookup_insert_ne; [done|]. intros ->. done.
Qed.

Section RecorderProofs.
Context {K : Type} `{EqDecision K}.
Implicit Types (self : Recorder K) (m : mutation) (ts : K).

Lemma record_returns ts self :
  closed (store self) (kalman self) ->
  exists h' snapshot,
    record ts self
    = Returns (mkRecorder h' (kalman self)
                          (dict_set (kalman_record self) ts snapshot)) /\
    store self `prefix_of` h' /\
    copy_of (store self) h' (kalman self) snapshot.
Proof.
  intros Hclosed.
  destruct (deepcopy_copies _ _ Hclosed) as (h' & snapshot & Hcopy & Hpre & Hrel).
  exists h', snapshot. unfold record. rewrite Hcopy. done.
Qed.

Lemma record_wf ts self self' :
  wf self -> record ts self = Returns self' -> wf self'.
Proof.
  intros [Hlive Hsnaps] Hrec.
  destruct (record_returns ts self Hlive) as (h' & snapshot & Hrec' & Hpre & Hrel).
  rewrite Hrec' in Hrec. injection Hrec as <-.
  split; simpl; [by eapply closed_prefix|].
  rewrite Forall_forall in Hsnaps. apply Forall_forall. intros snap Hsnap.
  apply dict_values_set in Hsnap as [->|Hold].
  - split; [by eapply copy_of_closed|].
    intros l Hl Hl'. apply (copy_of_fresh _ _ _ _ _ Hrel) in Hl.
    unfold closed in Hlive. rewrite Forall_forall in Hlive.
    apply Hlive in Hl'. lia.
  - destruct (Hsnaps snap Hold) as [Hclosed Hsep].
    split; [by eapply closed_prefix | done].
Qed.

Lemma mutate_kalman_record m self :
  kalman_record (mutate m self) = kalman_record self.
Proof. destruct m; simpl; repeat case_match; done. Qed.

Lemma mutate_wf m self : wf self -> wf (mutate m self).
Proof.
  intros [Hlive Hsnaps]. pose proof Hlive as Hlive'.
  unfold closed in Hlive'. rewrite Forall_forall in Hlive'.
  destruct m as [name v|name v|name src]; simpl.
  - destruct (dict_get (kalman self) name) as [l|]; [|done].
    split; simpl; unfold closed in *; rewrite length_insert; [done|].
    eapply Forall_impl; [exact Hsnaps|]. intros snap [Hc Hs]. done.
  - split; simpl.
    + apply Forall_forall. intros l Hl. rewrite length_app. simpl.
      apply dict_values_set in Hl as [->|Hl]; [lia|]. apply Hlive' in Hl. lia.
    + eapply Forall_impl; [exact Hsnaps|]. intros snap [Hc Hs]. split.
      * eapply closed_prefix; [by apply prefix_app_r | done].
      * intros l Hl Hl'. unfold closed in Hc. rewrite Forall_forall in Hc.
        apply dict_values_set in Hl' as [->|Hl']; [|by apply (Hs l)].
        apply Hc in Hl. lia.
  - destruct (dict_get (kalman self) src) as [l0|] eqn:Hsrc; [|done].
    apply dict_get_values in Hsrc. split; simpl.
    + apply Forall_forall. intros l Hl.
      apply dict_values_set in Hl as [->|Hl]; by apply Hlive'.
    + eapply Forall_impl; [exact Hsnaps|]. intros snap [Hc Hs]. split; [done|].
      intros l Hl Hl'.
      apply dict_values_set in Hl' as [Heq|Hl']; [subst l; by apply (Hs l0) | by apply (Hs l)].
Qed.

(** A change of the live estimator is not seen through a snapshot. *)
Lemma mutate_frame m self (snap : instance) (name : string) :
  closed (store self) snap -> separated (kalman self) snap ->
  getattr (store (mutate m self)) snap name = getattr (store self) snap name.
Proof.
  intros Hclosed Hsep. destruct m as [attr v|attr v|attr src]; simpl.
  - destruct (dict_get (kalman self) attr) as [l|] eqn:Hget; [|done]. simpl.
    apply getattr_insert. intros Hl. apply (Hsep l Hl).
    by eapply dict_get_values.
  - by apply getattr_prefix; [apply prefix_app_r|].
  - destruct (dict_get (kalman self) src); done.
Qed.

Lemma mutates_frame (ms : list mutation) self :
  wf self ->
  wf (mutates ms self) /\
  kalman_record (mutates ms self) = kalman_record self /\
  forall snap name, snap ∈ dict_values (kalman_record self) ->
    getattr (store (mutates ms self)) snap name = getattr (store self) snap name.
Proof.
  unfold mutates. revert self. induction ms as [|m ms IH]; intros self Hwf; [done|].
  simpl. destruct (IH (mutate m self) (mutate_wf m self Hwf)) as (Hwf' & Hrec & Hframe).
  rewrite mutate_kalman_record in Hrec, Hframe.
  split_and!; [done | done |]. intros snap name Hsnap.
  rewrite Hframe by done.
  destruct Hwf as [_ Hsnaps]. rewrite Forall_forall in Hsnaps.
  destruct (Hsnaps snap Hsnap). by apply mutate_frame.
Qed.

Lemma mutates_projection (ms : list mutation) self (name : string) :
  wf self ->
  mapM (fun kalman => getattr (store (mutates ms self)) kalman name)
       (dict_values (kalman_record (mutates ms self)))
  = mapM (fun kalman => getattr (store self) kalman name)
         (dict_values (kalman_record self)).
Proof.
  intros Hwf. destruct (mutates_frame ms self Hwf) as (_ & -> & Hframe).
  apply mapM_py_ext. intros snap Hsnap. by apply Hframe.
Qed.

Lemma mutates_read_snapshot (ms : list mutation) self ts (name : string) :
  wf self ->
  read_snapshot (mutates ms self) ts name = read_snapshot self ts name.
Proof.
  intros Hwf. destruct (mutates_frame ms self Hwf) as (_ & Hrec & Hframe).
  unfold read_snapshot. rewrite Hrec.
  destruct (dict_get (kalman_record self) ts) as [snap|] eqn:Hget; [|done].
  apply Hframe. by eapply dict_get_values.
Qed.

Lemma projection_by_keys self (name : string) :
  NoDup (dict_keys (kalman_record self)) ->
  mapM (fun kalman => getattr (store self) kalman name)
       (dict_values (kalman_record self))
  = mapM (fun ts => read_snapshot self ts name) (dict_keys (kalman_record self)).
Proof. intros Hnd. by rewrite mapM_dict_values. Qed.

Lemma run_keys (evs : list (event K)) self :
  wf self -> NoDup (dict_keys (kalman_record self)) ->
  exists self',
    run evs self = Returns self' /\ wf self' /\
    NoDup (dict_keys (kalman_record self')) /\
    dict_keys (kalman_record self')
    = foldl (fun acc x => if decide (x ∈ acc) then acc else acc ++ [x])
            (dict_keys (kalman_record self)) (recorded evs).
Proof.
  revert self. induction evs as [|[m|ts] evs IH]; intros self Hwf Hnd.
  - by exists self.
  - destruct (IH (mutate m self)) as (self' & Hrun & Hwf' & Hnd' & Hkeys);
      [by apply mutate_wf | by rewrite mutate_kalman_record |].
    exists self'. rewrite mutate_kalman_record in Hkeys. done.
  - destruct (record_returns ts self (proj1 Hwf)) as (h' & snap & Hrec & _).
    destruct (IH (mkRecorder h' (kalman self) (dict_set (kalman_record self) ts snap)))
      as (self' & Hrun & Hwf' & Hnd' & Hkeys);
      [by eapply record_wf | by apply dict_keys_set_NoDup |].
    exists self'. simpl. rewrite Hrec. simpl. split_and!; [done..|].
    rewrite Hkeys. simpl. by rewrite dict_keys_set.
Qed.

Lemma wf_init (h : heap) (obj : instance) : closed h obj -> wf (K := K) (init h obj).
Proof. intros Hclosed. split; [done | constructor]. Qed.

End RecorderProofs.

(** ** The code on concrete inputs *)

(** The scenario of the specification: unit steps from (6378137, 0, 0)
    with the identity attitude. *)
Example straight_reader_scenario :
  get_measured_positions (straight_reader [10; 20; 30]%Z)
  = Returns [mkvec 6378137 0 0; mkvec 6378138 0 0; mkvec 6378139 0 0].
Proof.
  transitivity (Returns
    [mkvec 6378137 0 0;
     vadd (mkvec 6378137 0 0) (apply rot_identity (mkvec 1 0 0) true);
     vadd (vadd (mkvec 6378137 0 0) (apply rot_identity (mkvec 1 0 0) true))
          (apply (rot_mul rot_identity rot_identity) (mkvec 1 0 0) true)]);
    [reflexivity | vec_arith].
Qed.

(** A single timestamp: only the seed. *)
Example single_timestamp_seed :
  get_measured_positions (straight_reader [10]%Z) = Returns [mkvec 6378137 0 0] /\
  get_measured_attitude (straight_reader [10]%Z) = Returns [rot_identity].
Proof. split; reflexivity. Qed.

(** With a seed attitude of a quarter turn, the step (1, 0, 0) of the
    aligner is accumulated as (0, -1, 0): the inverse application. The
    forward application gives (0, 1, 0). *)
Example turned_reader_trajectory :
  get_measured_positions (turned_reader [0; 1]%Z)
  = Returns [vzero; mkvec 0 (-1) 0] /\
  apply quarter_turn (mkvec 1 0 0) true = mkvec 0 (-1) 0 /\
  apply quarter_turn (mkvec 1 0 0) false = mkvec 0 1 0.
Proof.
  split_and!; [|vec_arith..].
  transitivity (Returns
    [vzero; vadd vzero (apply quarter_turn (mkvec 1 0 0) true)]);
    [reflexivity | vec_arith].
Qed.

(** Timestamps given backwards are integrated as they come. *)
Example reversed_timestamps_trajectory :
  get_measured_positions (turned_reader [2; 1]%Z)
  = Returns [vzero; mkvec 0 (-1) 0] /\
  get_measured_attitude (turned_reader [2; 1]%Z)
  = Returns [quarter_turn; rot_mul quarter_turn rot_identity].
Proof.
  split; [|reflexivity].
  transitivity (Returns
    [vzero; vadd vzero (apply quarter_turn (mkvec 1 0 0) true)]);
    [reflexivity | vec_arith].
Qed.

(** The three steps of [rbd_translate] with a quarter turn and the
    boresight (0, 1, 0). *)
Example rbd_translate_quarter_turn :
  rbd_translate (SinglePair (mkvec 1 2 3) quarter_turn) (mkvec 0 1 0)
  = Returns (OneVec (mkvec 0 2 3)).
Proof. unfold rbd_translate. vec_arith. Qed.

(** The live estimator moves after [record]: the live position changes,
    the recorded one does not. *)
Example record_then_move :
  exists self1 : Recorder Z,
    record 5%Z (init estimator_store estimator) = Returns self1 /\
    let self2 := mutate (SetItem "position" (VVec (mkvec 7 0 0))) self1 in
    getattr (store self2) (kalman self2) "position" = Returns (VVec (mkvec 7 0 0)) /\
    read_snapshot self2 5%Z "position" = Returns (VVec vzero).
Proof. eexists. split; [reflexivity|]. split; reflexivity. Qed.

(** Recording twice at one timestamp keeps one entry, the last. *)
Example record_twice_last_wins :
  exists self : Recorder Z,
    run [at_position 1; Record_ 5%Z; at_position 2; Record_ 5%Z]
        (init estimator_store estimator) = Returns self /\
    get_positions self = Returns [VVec (mkvec 2 0 0)].
Proof. eexists. split; reflexivity. Qed.

(** * The claims *)

(** ** PoseIntegrator *)

(** C1, as stated, fails: for the reader over the timestamps 0, 1 whose seed
    attitude is a quarter turn and whose aligner reports the translation
    (1, 0, 0), the positions returned by [get_measured_positions] do not
    satisfy [position[1] = position[0] + attitude[0].apply(translation[1])]
    with the forward application: the code returns (0, -1, 0), the forward
    application gives (0, 1, 0). *)
Lemma forward_recurrence_refuted :
  ~ exists pos att,
      get_measured_positions (turned_reader [0; 1]%Z) = Returns pos /\
      get_measured_attitude (turned_reader [0; 1]%Z) = Returns att /\
      position_recurrence false (turned_reader [0; 1]%Z) pos att.
Proof.
  intros (pos & att & Hpos & Hatt & Hrec).
  injection Hpos as <-. injection Hatt as <-.
  destruct (Hrec 1%nat) as (p & a & tr & Hp & Ha & Htr & Hnext); [simpl; lia|].
  injection Hp as <-. injection Ha as <-. injection Htr as <-.
  injection Hnext as _ Hy.
  cbv [col2 vdot row1 row2 row3 vx vy vz] in Hy. lra.
Qed.

(** C1 (amended): for every reader, [get_measured_positions] returns
    [max 1 N] positions, the first is the seed [get_gps_pos(0)], and for
    [i = 1..N-1], [position[i] = position[i-1] +
    attitude[i-1].apply(translation[i], inverse=True)]: the translation is
    taken to the absolute frame by the inverse application of the previous
    attitude, where [attitude] is the sequence of [get_measured_attitude]. *)
Theorem measured_positions_recurrence {T RD : Type} (reader : Reader T RD) :
  exists pos att,
    get_measured_positions reader = Returns pos /\
    get_measured_attitude reader = Returns att /\
    length pos = Nat.max 1 (length (get_timestamps reader)) /\
    pos !! 0 = Some (get_gps_pos reader 0) /\
    position_recurrence true reader pos att.
Proof.
  destruct (integrators_return reader) as
    (pos & att & _ & Hpos & Hatt & Hlen & _ & Hp0 & _ & Hrec).
  exists pos, att. split_and!; [done | done | lia | done |].
  intros i Hi.
  destruct (Hrec i) as (p & a & tr & Hp & Ha & Htr & Hnext & _); [lia|].
  by exists p, a, tr.
Qed.

(** C4: for every reader, [get_measured_attitude] returns [max 1 N]
    attitudes, the first is the seed [get_gps_att(0)] itself, and for
    [i = 1..N-1], [attitude[i] = attitude[i-1] * rotation[i]]: the
    incremental rotation is composed on the right of the previous
    attitude. *)
Theorem measured_attitude_recurrence {T RD : Type} (reader : Reader T RD) :
  exists att,
    get_measured_attitude reader = Returns att /\
    length att = Nat.max 1 (length (get_timestamps reader)) /\
    att !! 0 = Some (get_gps_att reader 0) /\
    attitude_recurrence reader att.
Proof.
  destruct (integrators_return reader) as
    (pos & att & _ & _ & Hatt & _ & Hlen & _ & Ha0 & Hrec).
  exists att. split_and!; [done | lia | done |].
  intros i Hi.
  destruct (Hrec i) as (p & a & tr & _ & Ha & Htr & _ & Hnext); [lia|].
  by exists a, tr.
Qed.

(** C10: for every reader, the loop of [get_measured_positions] ends with
    a list [measured_att] that is, element for element, the list returned
    by [get_measured_attitude] (and both functions return). *)
Theorem measured_attitude_consistent {T RD : Type} (reader : Reader T RD) :
  exists pos att,
    get_measured_positions_loop reader = Returns (pos, att) /\
    get_measured_positions reader = Returns pos /\
    get_measured_attitude reader = Returns att.
Proof.
  destruct (integrators_return reader) as (pos & att & Hloop & Hpos & Hatt & _).
  by exists pos, att.
Qed.

(** C3, as stated, fails: the timestamps 2, 1 are not strictly increasing,
    and both integrators return a trajectory instead of failing. *)
Lemma ordering_check_refuted : ~ ordering_checked (turned_reader [2; 1]%Z).
Proof.
  intros Hchecked. destruct Hchecked as [[e He] _].
  - simpl. lia.
  - discriminate He.
Qed.

(** C3 (amended): the integrators do not look at the order of the
    timestamps. For every timestamp sequence, strictly increasing or not,
    [get_measured_positions] and [get_measured_attitude] return [max 1 N]
    poses, integrated in the order in which the timestamps are given; no
    error is raised. *)
Theorem integrators_ignore_order {T RD : Type} (reader : Reader T RD) :
  exists pos att,
    get_measured_positions reader = Returns pos /\
    get_measured_attitude reader = Returns att /\
    length pos = Nat.max 1 (length (get_timestamps reader)) /\
    length att = Nat.max 1 (length (get_timestamps reader)) /\
    ~ fails_fast (get_measured_positions reader) /\
    ~ fails_fast (get_measured_attitude reader).
Proof.
  destruct (integrators_return reader) as
    (pos & att & _ & Hpos & Hatt & Hlp & Hla & _).
  exists pos, att. rewrite Hpos, Hatt.
  split_and!; [done | done | lia | lia | |]; intros [e He]; discriminate He.
Qed.

(** ** BodyFrameTranslate *)

(** C5: for a single (position, attitude) pair, and for parallel
    sequences of positions and attitudes of equal length, [rbd_translate]
    returns, for each pair, exactly
    [attitude.apply(attitude.apply(position) - boresight, inverse=True)]:
    rotate by the attitude, subtract the boresight, rotate back by the
    inverse. *)
Theorem rbd_translate_three_steps (trans : vec) :
  (forall (p : vec) (a : Rotation),
     rbd_translate (SinglePair p a) trans
     = Returns (OneVec (apply a (vsub (apply a p false) trans) true))) /\
  (forall (ps : list vec) (atts : list Rotation),
     length ps = length atts ->
     exists out,
       rbd_translate (Parallel ps atts) trans = Returns (ManyVec out) /\
       length out = length ps /\
       forall i p a, ps !! i = Some p -> atts !! i = Some a ->
         out !! i = Some (apply a (vsub (apply a p false) trans) true)).
Proof.
  split; [done|]. intros ps atts Hlen.
  exists (zip_with (translate_one trans) ps atts).
  split_and!.
  - apply rbd_translate_parallel. lia.
  - rewrite length_zip_with. lia.
  - intros i p a Hp Ha. rewrite lookup_zip_with, Hp. simpl. by rewrite Ha.
Qed.

(** C5 at a concrete input: a quarter turn and the boresight (0, 1, 0). *)
Lemma rbd_translate_three_steps_witness :
  exists out,
    rbd_translate (Parallel [mkvec 1 2 3] [quarter_turn]) (mkvec 0 1 0)
    = Returns (ManyVec out) /\
    length out = length [mkvec 1 2 3] /\
    forall i p a, [mkvec 1 2 3] !! i = Some p -> [quarter_turn] !! i = Some a ->
      out !! i = Some (apply a (vsub (apply a p false) (mkvec 0 1 0)) true).
Proof.
  apply (proj2 (rbd_translate_three_steps (mkvec 0 1 0))). reflexivity.
Defined.

Section ZeroBoresightFloat64.
Import PrimFloat.
Local Open Scope float_scope.


End ZeroBoresightFloat64.



(** ** FrameRotation *)



(** ** StateRecorder *)

(** C2, as stated, fails: after the estimator is recorded at the
    timestamps 3, 1, 2, in this order, at the positions x = 3, 1, 2,
    [get_positions] returns the positions in the order 3, 1, 2 of the
    calls, and the projection by ascending timestamp is 1, 2, 3. *)
Lemma ascending_projection_refuted :
  exists self : Recorder Z,
    run out_of_order_run (init estimator_store estimator) = Returns self /\
    get_positions self
    = Returns [VVec (mkvec 3 0 0); VVec (mkvec 1 0 0); VVec (mkvec 2 0 0)] /\
    positions_ascending self
    = Returns [VVec (mkvec 1 0 0); VVec (mkvec 2 0 0); VVec (mkvec 3 0 0)] /\
    get_positions self <> positions_ascending self.
Proof.
  eexists. split; [reflexivity|].
  split; [reflexivity|]. split; [reflexivity|].
  intros Heq. injection Heq as Heq. lra.
Qed.

(** C2 (amended): [get_positions] and [get_attitude] return the stored
    snapshots in the insertion order of the dictionary: after any run of
    updates and [record] calls on a new recorder, the keys are the
    recorded timestamps in the order in which each was recorded first,
    and the projections read the snapshots in that order. *)
Theorem projections_in_insertion_order {K : Type} `{EqDecision K}
    (h : heap) (obj : instance) (evs : list (event K)) :
  closed h obj ->
  exists self,
    run evs (init h obj) = Returns self /\
    dict_keys (kalman_record self) = first_occurrences (recorded evs) /\
    get_positions self
    = mapM (fun ts => read_snapshot self ts "position")
           (first_occurrences (recorded evs)) /\
    get_attitude self
    = mapM (fun ts => read_snapshot self ts "attitude")
           (first_occurrences (recorded evs)).
Proof.
  intros Hclosed.
  destruct (run_keys evs (init h obj)) as (self & Hrun & _ & Hnd & Hkeys);
    [by apply wf_init | constructor |].
  exists self. change (dict_keys (kalman_record (init h obj))) with (@nil K) in Hkeys.
  fold (first_occurrences (recorded evs)) in Hkeys.
  split_and!; [done | done | |];
    rewrite <- Hkeys; by apply projection_by_keys.
Qed.

(** C2 (amended) at a concrete input: the run recorded at 3, 1, 2. *)
Lemma projections_in_insertion_order_witness :
  exists self : Recorder Z,
    run out_of_order_run (init estimator_store estimator) = Returns self /\
    dict_keys (kalman_record self) = first_occurrences (recorded out_of_order_run) /\
    get_positions self
    = mapM (fun ts => read_snapshot self ts "position")
           (first_occurrences (recorded out_of_order_run)) /\
    get_attitude self
    = mapM (fun ts => read_snapshot self ts "attitude")
           (first_occurrences (recorded out_of_order_run)).
Proof.
  apply projections_in_insertion_order.
  unfold closed, estimator, estimator_store. simpl.
  constructor; [lia|]. constructor; [lia|]. constructor.
Defined.

(** C9: [record(ts)] stores an independent copy of the live estimator.
    In a recorder whose snapshots were made by [record], the call returns,
    the snapshot stored under [ts] reads, attribute by attribute, as the
    live estimator did at the call, and whatever is done to the live
    estimator afterwards (writing into the object of an attribute,
    binding an attribute to a new or to another of its objects), the
    snapshot under [ts] and the results of [get_positions] and
    [get_attitude] stay as they were. *)
Theorem record_snapshot_independent {K : Type} `{EqDecision K}
    (ts : K) (self : Recorder K) :
  wf self ->
  exists self1,
    record ts self = Returns self1 /\
    (forall name,
       read_snapshot self1 ts name = getattr (store self) (kalman self) name) /\
    forall (ms : list mutation),
      (forall name,
         read_snapshot (mutates ms self1) ts name = read_snapshot self1 ts name) /\
      get_positions (mutates ms self1) = get_positions self1 /\
      get_attitude (mutates ms self1) = get_attitude self1.
Proof.
  intros Hwf.
  destruct (record_returns ts self (proj1 Hwf)) as (h' & snap & Hrec & Hpre & Hcopy).
  eexists. split; [exact Hrec|].
  assert (wf (mkRecorder h' (kalman self) (dict_set (kalman_record self) ts snap)))
    as Hwf1 by (by eapply record_wf).
  split.
  - intros name. unfold read_snapshot. simpl.
    rewrite dict_get_set_eq. by apply getattr_copy_of.
  - intros ms. split_and!.
    + intros name. by apply mutates_read_snapshot.
    + by apply mutates_projection.
    + by apply mutates_projection.
Qed.

(** C9 at a concrete input: a new recorder, timestamp 5. *)
Lemma record_snapshot_independent_witness :
  exists self1 : Recorder Z,
    record 5%Z (init estimator_store estimator) = Returns self1 /\
    (forall name,
       read_snapshot self1 5%Z name = getattr estimator_store estimator name) /\
    forall (ms : list mutation),
      (forall name,
         read_snapshot (mutates ms self1) 5%Z name = read_snapshot self1 5%Z name) /\
      get_positions (mutates ms self1) = get_positions self1 /\
      get_attitude (mutates ms self1) = get_attitude self1.
Proof.
  apply (record_snapshot_independent 5%Z (init estimator_store estimator)).
  apply wf_init. unfold closed, estimator, estimator_store. simpl.
  constructor; [lia|]. constructor; [lia|]. constructor.
Defined.

(** * Further properties of the code *)

Lemma mvec_vzero (m : mat) : mvec m vzero = vzero.
Proof.
  destruct m as [[] [] []].
  apply vec_eq; unfold mvec, vzero, vdot; simpl; ring.
Qed.

(** ** rbd_translate, further *)

Lemma zip_with_take_second {A B C : Type} (f : A -> B -> C)
    (l : list A) (k : list B) :
  zip_with f l (take (length l) k) = zip_with f l k.
Proof.
  revert k. induction l as [|x l IH]; intros [|y k]; simpl; [done..|].
  by rewrite IH.
Qed.

(** X6: with fewer attitudes than positions, [rbd_translate] raises
    [IndexError] (at [attitudes[i]]) and returns nothing, whatever the
    boresight. *)
Theorem rbd_translate_too_few_attitudes
    (ps : list vec) (atts : list Rotation) (trans : vec) :
  length atts < length ps ->
  rbd_translate (Parallel ps atts) trans = Raises IndexError.
Proof. apply rbd_translate_short. Qed.

(** X6 at a concrete input: two positions, one attitude. *)
Lemma rbd_translate_too_few_attitudes_witness :
  rbd_translate (Parallel [vzero; vzero] [rot_identity]) vzero = Raises IndexError.
Proof. apply rbd_translate_too_few_attitudes. simpl. lia. Defined.

(** X7: with more attitudes than positions, [rbd_translate] returns one
    result per position and ignores the attitudes beyond the last
    position. *)
Theorem rbd_translate_surplus_attitudes
    (ps : list vec) (atts : list Rotation) (trans : vec) :
  length ps <= length atts ->
  exists out,
    rbd_translate (Parallel ps atts) trans = Returns (ManyVec out) /\
    length out = length ps /\
    rbd_translate (Parallel ps (take (length ps) atts)) trans
    = Returns (ManyVec out).
Proof.
  intros Hlen. exists (zip_with (translate_one trans) ps atts). split_and!.
  - by apply rbd_translate_parallel.
  - rewrite length_zip_with. lia.
  - rewrite rbd_translate_parallel by (rewrite length_take; lia).
    by rewrite zip_with_take_second.
Qed.

(** X7 at a concrete input: one position, two attitudes. *)
Lemma rbd_translate_surplus_attitudes_witness :
  exists out,
    rbd_translate (Parallel [mkvec 1 2 3] [quarter_turn; rot_identity]) vzero
    = Returns (ManyVec out) /\
    length out = length [mkvec 1 2 3] /\
    rbd_translate (Parallel [mkvec 1 2 3]
                     (take (length [mkvec 1 2 3]) [quarter_turn; rot_identity])) vzero
    = Returns (ManyVec out).
Proof. apply rbd_translate_surplus_attitudes. simpl. lia. Defined.

(** ** The integrators, further *)

Lemma for_each_ext {S : Type} (idx : list nat) (body1 body2 : nat -> S -> py S) (s : S) :
  (forall i, i ∈ idx -> forall s', body1 i s' = body2 i s') ->
  for_each idx body1 s = for_each idx body2 s.
Proof.
  revert s. induction idx as [|i idx IH]; intros s Hext; simpl; [done|].
  rewrite (Hext i) by left.
  destruct (body2 i s) as [s'|e]; simpl; [|done].
  apply IH. intros j Hj. apply Hext. by right.
Qed.

Section IntegratorFurther.
Context {T RD : Type}.
Implicit Types (reader : Reader T RD).

(** X9: with no timestamp or a single one, both integrators return
    exactly the seed pose, [get_gps_pos(0)] and [get_gps_att(0)]. *)
Theorem integrators_seed_only reader :
  length (get_timestamps reader) <= 1 ->
  get_measured_positions reader = Returns [get_gps_pos reader 0] /\
  get_measured_attitude reader = Returns [get_gps_att reader 0].
Proof.
  intros Hlen.
  unfold get_measured_positions, get_measured_positions_loop,
    get_measured_attitude, range.
  replace (length (get_timestamps reader) - 1) with 0 by lia. done.
Qed.

Lemma position_step_append reader (t : T) (i : nat) (st : list vec * list Rotation) :
  i < length (get_timestamps reader) ->
  position_step (append_timestamp reader t) (get_timestamps reader ++ [t]) i st
  = position_step reader (get_timestamps reader) i st.
Proof.
  intros Hi. unfold position_step, index. destruct st as [pos att]. simpl.
  rewrite !lookup_app_l by lia. done.
Qed.

(** X11: the integration is incremental. If the reader has at least one
    timestamp, logging one more frame, at [t], keeps every pose of the
    trajectory and appends one: the last position plus the new
    translation taken through the inverse of the last attitude, and the
    last attitude times the new rotation. *)
Theorem append_timestamp_extends reader (t : T) :
  get_timestamps reader <> [] ->
  exists pos att last_pos last_att t_last,
    get_measured_positions reader = Returns pos /\
    get_measured_attitude reader = Returns att /\
    last pos = Some last_pos /\ last att = Some last_att /\
    last (get_timestamps reader) = Some t_last /\
    let tr := image_transformation_from reader (get_radardata reader t)
                                        (get_radardata reader t_last) in
    get_measured_positions (append_timestamp reader t)
    = Returns (pos ++ [vadd last_pos (apply last_att tr.1 true)]) /\
    get_measured_attitude (append_timestamp reader t)
    = Returns (att ++ [rot_mul last_att tr.2]).
Proof.
  intros Hne.
  assert (1 <= length (get_timestamps reader)) as Hn
    by (destruct (get_timestamps reader); [done | simpl; lia]).
  destruct (integrators_return reader) as
    (pos & att & Hloop & Hpos & Hatt & Hlp & Hla & _).
  set (n := length (get_timestamps reader)) in *.
  destruct (lookup_lt_is_Some_2 pos (n - 1)) as [lp Hlpos]; [lia|].
  destruct (lookup_lt_is_Some_2 att (n - 1)) as [la Hlatt]; [lia|].
  destruct (lookup_lt_is_Some_2 (get_timestamps reader) (n - 1)) as [tl Htl];
    [fold n; lia|].
  exists pos, att, lp, la, tl.
  split_and!; [done | done | | | |].
  - rewrite last_lookup, Hlp. done.
  - rewrite last_lookup, Hla. done.
  - rewrite last_lookup. fold n. by replace (pred n) with (n - 1) by lia.
  - simpl.
    assert (get_measured_positions_loop (append_timestamp reader t)
            = Returns (pos ++ [vadd lp (apply la
                (image_transformation_from reader (get_radardata reader t)
                                                  (get_radardata reader tl)).1 true)],
                       att ++ [rot_mul la
                (image_transformation_from reader (get_radardata reader t)
                                                  (get_radardata reader tl)).2]))
      as Hloop'.
    { unfold get_measured_positions_loop, range.
      change (get_timestamps (append_timestamp reader t))
        with (get_timestamps reader ++ [t]).
      change (get_gps_pos (append_timestamp reader t)) with (get_gps_pos reader).
      change (get_gps_att (append_timestamp reader t)) with (get_gps_att reader).
      rewrite length_app. fold n. simpl.
      replace (n + 1 - 1) with (S (n - 1)) by lia.
      rewrite seq_S, for_each_app.
      rewrite (for_each_ext _ _ (position_step reader (get_timestamps reader))).
      2:{ intros i Hi st. apply elem_of_seq in Hi.
          apply position_step_append. fold n. lia. }
      unfold get_measured_positions_loop, range in Hloop. fold n in Hloop.
      rewrite Hloop. simpl.
      unfold position_step.
      replace (S (n - 1) - 1) with (n - 1) by lia.
      rewrite (index_lookup _ (S (n - 1)) t)
        by (apply list_lookup_middle; fold n; lia).
      rewrite (index_lookup _ (n - 1) tl)
        by (by rewrite lookup_app_l by (fold n; lia)).
      simpl.
      destruct (image_transformation_from reader _ _) as [translation rotation].
      rewrite (index_last_lookup pos (n - 1) lp) by done.
      rewrite (index_last_lookup att (n - 1) la) by done.
      done. }
    rewrite measured_attitude_of_loop. unfold get_measured_positions.
    rewrite Hloop'. done.
Qed.

End IntegratorFurther.

(** X9 at a concrete input: a single timestamp. *)
Lemma integrators_seed_only_witness :
  get_measured_positions (straight_reader [10%Z])
  = Returns [get_gps_pos (straight_reader [10%Z]) 0] /\
  get_measured_attitude (straight_reader [10%Z])
  = Returns [get_gps_att (straight_reader [10%Z]) 0].
Proof. apply integrators_seed_only. simpl. lia. Defined.

(** X11 at a concrete input: one timestamp logged, a second one added. *)
Lemma append_timestamp_extends_witness :
  exists pos att last_pos last_att t_last,
    get_measured_positions (turned_reader [0%Z]) = Returns pos /\
    get_measured_attitude (turned_reader [0%Z]) = Returns att /\
    last pos = Some last_pos /\ last att = Some last_att /\
    last (get_timestamps (turned_reader [0%Z])) = Some t_last /\
    let tr := image_transformation_from (turned_reader [0%Z])
                (get_radardata (turned_reader [0%Z]) 1%Z)
                (get_radardata (turned_reader [0%Z]) t_last) in
    get_measured_positions (append_timestamp (turned_reader [0%Z]) 1%Z)
    = Returns (pos ++ [vadd last_pos (apply last_att tr.1 true)]) /\
    get_measured_attitude (append_timestamp (turned_reader [0%Z]) 1%Z)
    = Returns (att ++ [rot_mul last_att tr.2]).
Proof. apply append_timestamp_extends. simpl. discriminate. Defined.

(** ** The recorder, further *)

Lemma getattr_closed (h : heap) (obj : instance) (name : string) :
  closed h obj ->
  match dict_get obj name with
  | Some _ => exists v, getattr h obj name = Returns v
  | None => getattr h obj name = Raises AttributeError
  end.
Proof.
  intros Hclosed. unfold getattr.
  destruct (dict_get obj name) as [l|] eqn:Hget; [|done].
  apply dict_get_values in Hget.
  unfold closed in Hclosed. rewrite Forall_forall in Hclosed.
  destruct (lookup_lt_is_Some_2 h l (Hclosed l Hget)) as [v Hv].
  exists v. by apply index_lookup.
Qed.

Lemma mapM_py_raises {A B : Type} (f : A -> py B) (l : list A) (e : exn) :
  Forall (fun x => f x = Raises e \/ exists y, f x = Returns y) l ->
  Exists (fun x => f x = Raises e) l ->
  mapM f l = Raises e.
Proof.
  induction 1 as [|x l Hx _ IH]; intros Hex; [by apply Exists_nil in Hex|].
  simpl. destruct Hx as [Hx|[y Hy]].
  - by rewrite Hx.
  - rewrite Hy. simpl. apply Exists_cons in Hex as [Hex|Hex]; [congruence|].
    by rewrite IH.
Qed.

Section RecorderFurther.
Context {K : Type} `{EqDecision K}.
Implicit Types (self : Recorder K) (m : mutation) (ts : K).

(** X13: last write wins, in place. [record(ts)] leaves the live
    estimator as it is; at a timestamp that is already recorded it keeps
    the keys of the dictionary and their order, at a new timestamp it adds
    the key at the end. *)
Theorem record_keys ts self :
  closed (store self) (kalman self) ->
  exists self1,
    record ts self = Returns self1 /\
    kalman self1 = kalman self /\
    dict_keys (kalman_record self1)
    = if decide (ts ∈ dict_keys (kalman_record self))
      then dict_keys (kalman_record self)
      else dict_keys (kalman_record self) ++ [ts].
Proof.
  intros Hclosed.
  destruct (record_returns ts self Hclosed) as (h' & snap & Hrec & _).
  eexists. split; [exact Hrec|]. simpl. split; [done|]. apply dict_keys_set.
Qed.

(** X14: [record(ts)] touches nothing else: the snapshots stored under
    the other timestamps, and the live estimator, read after the call as
    they did before. *)
Theorem record_frame ts self :
  wf self ->
  exists self1,
    record ts self = Returns self1 /\
    (forall ts' name, ts' <> ts ->
       read_snapshot self1 ts' name = read_snapshot self ts' name) /\
    (forall name,
       getattr (store self1) (kalman self1) name
       = getattr (store self) (kalman self) name).
Proof.
  intros [Hlive Hsnaps].
  destruct (record_returns ts self Hlive) as (h' & snap & Hrec & Hpre & _).
  eexists. split; [exact Hrec|]. simpl. split.
  - intros ts' name Hne. unfold read_snapshot. simpl.
    rewrite dict_get_set, decide_False by done.
    destruct (dict_get (kalman_record self) ts') as [old|] eqn:Hget; [|done].
    apply dict_get_values in Hget. rewrite Forall_forall in Hsnaps.
    destruct (Hsnaps old Hget) as [Hclosed _]. by apply getattr_prefix.
  - intros name. by apply getattr_prefix.
Qed.

(** X15: the recorder keeps its store well formed. After any run of
    updates and [record] calls on a new recorder, every reference is
    valid, no snapshot shares an object with the live estimator, and each
    timestamp has a single entry. *)
Theorem run_keeps_wf (h : heap) (obj : instance) (evs : list (event K)) :
  closed h obj ->
  exists self,
    run evs (init h obj) = Returns self /\ wf self /\
    NoDup (dict_keys (kalman_record self)).
Proof.
  intros Hclosed.
  destruct (run_keys evs (init h obj)) as (self & Hrun & Hwf & Hnd & _);
    [by apply wf_init | constructor |].
  by exists self.
Qed.

(** X17: a snapshot without the attribute makes the projection fail. In
    a well-formed recorder, if some stored snapshot has no attribute
    [position], [get_positions] raises [AttributeError]. *)
Theorem get_positions_missing_attribute self (snap : instance) :
  wf self ->
  snap ∈ dict_values (kalman_record self) ->
  dict_get snap "position" = None ->
  get_positions self = Raises AttributeError.
Proof.
  intros [_ Hsnaps] Hsnap Hnone. unfold get_positions.
  apply mapM_py_raises.
  - eapply Forall_impl; [exact Hsnaps|]. intros s [Hclosed _]. simpl.
    pose proof (getattr_closed (store self) s "position" Hclosed) as Hget.
    destruct (dict_get s "position"); auto.
  - apply Exists_exists. exists snap. split; [done|].
    unfold getattr. by rewrite Hnone.
Qed.

End RecorderFurther.

Lemma closed_estimator : closed estimator_store estimator.
Proof.
  unfold closed, estimator, estimator_store. simpl.
  constructor; [lia|]. constructor; [lia|]. constructor.
Qed.

Lemma wf_blind_recorder : wf blind_recorder.
Proof.
  split; simpl.
  - constructor; [simpl; lia | constructor].
  - constructor; [|constructor]. split.
    + constructor; [simpl; lia | constructor].
    + intros l Hl Hl'. simpl in Hl, Hl'.
      apply list_elem_of_singleton in Hl, Hl'. congruence.
Qed.

(** X13 at a concrete input: a new recorder, timestamp 5. *)
Lemma record_keys_witness :
  exists self1 : Recorder Z,
    record 5%Z (init estimator_store estimator) = Returns self1 /\
    kalman self1 = kalman (init (K := Z) estimator_store estimator) /\
    dict_keys (kalman_record self1)
    = if decide (5%Z ∈ dict_keys (kalman_record (init (K := Z) estimator_store estimator)))
      then dict_keys (kalman_record (init (K := Z) estimator_store estimator))
      else dict_keys (kalman_record (init (K := Z) estimator_store estimator)) ++ [5%Z].
Proof. apply record_keys. apply closed_estimator. Defined.

(** X14 at a concrete input: a recorder holding a snapshot, timestamp 7. *)
Lemma record_frame_witness :
  exists self1 : Recorder Z,
    record 7%Z blind_recorder = Returns self1 /\
    (forall ts' name, ts' <> 7%Z ->
       read_snapshot self1 ts' name = read_snapshot blind_recorder ts' name) /\
    (forall name,
       getattr (store self1) (kalman self1) name
       = getattr (store blind_recorder) (kalman blind_recorder) name).
Proof. apply record_frame. apply wf_blind_recorder. Defined.

(** X15 at a concrete input: the run recorded at 3, 1, 2. *)
Lemma run_keeps_wf_witness :
  exists self : Recorder Z,
    run out_of_order_run (init estimator_store estimator) = Returns self /\
    wf self /\ NoDup (dict_keys (kalman_record self)).
Proof. apply run_keeps_wf. apply closed_estimator. Defined.

(** X17 at a concrete input: a snapshot with an attitude only. *)
Lemma get_positions_missing_attribute_witness :
  get_positions blind_recorder = Raises AttributeError.
Proof.
  apply (get_positions_missing_attribute blind_recorder [("attitude"%string, 1%nat)]).
  - apply wf_blind_recorder.
  - simpl. apply list_elem_of_singleton. reflexivity.
  - reflexivity.
Defined.

(** ** ecef2lla *)

Section Ecef2llaProofs.
Variable transform : R -> R -> R -> R * R * R.

Lemma stack_T_transform_arrays (rows : list vec) :
  (let '(lon, lat, alt) :=
     transform_arrays transform (vx <$> rows) (vy <$> rows) (vz <$> rows) in
   stack_T lon lat alt)
  = (fun p => let '(lon, lat, alt) := transform (vx p) (vy p) (vz p) in
              mkvec lon lat alt) <$> rows.
Proof.
  unfold transform_arrays, stack_T.
  induction rows as [|p rows IH]; [done|].
  rewrite !fmap_cons. cbn [zip zip_with fmap list_fmap]. cbn [fst snd].
  f_equal; [by destruct (transform (vx p) (vy p) (vz p)) as [[lon lat] alt]|].
  exact IH.
Qed.

(** X18: on an array of points [ecef2lla] returns one row per point, and
    the row of a point is what [ecef2lla] returns for that point alone:
    the two call shapes agree. *)
Theorem ecef2lla_batch_rowwise (rows : list vec) :
  exists out,
    ecef2lla transform (Mat2 rows) = Mat2 out /\
    length out = length rows /\
    forall i p, rows !! i = Some p ->
      exists q, out !! i = Some q /\ ecef2lla transform (Vec1 p) = Vec1 q.
Proof.
  eexists. split_and!.
  - unfold ecef2lla.
    pose proof (stack_T_transform_arrays rows) as Hrows.
    destruct (transform_arrays transform _ _ _) as [[lon lat] alt].
    rewrite Hrows. reflexivity.
  - by rewrite length_fmap.
  - intros i p Hp. rewrite list_lookup_fmap, Hp. simpl.
    eexists. split; [reflexivity|].
    by destruct (transform (vx p) (vy p) (vz p)) as [[lon lat] alt].
Qed.

End Ecef2llaProofs.

(** ** plot_trajectory *)

Lemma vsub_diag (p : vec) : vsub p p = vzero.
Proof. apply vec_eq; simpl; lra. Qed.

(** X19: the trajectory drawn by [plot_trajectory] has one point for
    each position and starts at the origin, whatever the rotation; with
    no position at all, [pos[0]] raises [IndexError]. *)
Theorem centered_trajectory_origin (q : Rotation) (pos : list vec) :
  (pos = [] -> centered_trajectory q pos = Raises IndexError) /\
  (pos <> [] ->
   exists traj,
     centered_trajectory q pos = Returns traj /\
     length traj = length pos /\
     traj !! 0 = Some vzero).
Proof.
  split; [by intros ->|]. intros Hne.
  destruct pos as [|p0 pos]; [done|].
  eexists. split; [reflexivity|]. split; [by rewrite length_fmap|].
  simpl. f_equal. unfold apply. by rewrite vsub_diag, mvec_vzero.
Qed.

(** X19 at a concrete input: two positions, a quarter turn. *)
Lemma centered_trajectory_origin_witness :
  exists traj,
    centered_trajectory quarter_turn [mkvec 1 2 3; mkvec 4 5 6] = Returns traj /\
    length traj = length [mkvec 1 2 3; mkvec 4 5 6] /\
    traj !! 0 = Some vzero.
Proof.
  apply (proj2 (centered_trajectory_origin quarter_turn [mkvec 1 2 3; mkvec 4 5 6])).
  discriminate.
Defined.
